(** Verification of the game core of tiktakgo (src/main.go): the 3x3 board
    update [updateCell], the key handler [Update], session registration
    [RegisterSession]/[teaHandler] and the fan-out [BroadcastMessage]. *)

From Stdlib Require Import ZArith Lia.
From stdpp Require Import base list gmap strings.
Open Scope Z_scope.

(** * Go [int] (64 bit) arithmetic *)

(** Two's-complement wrap-around of a 64-bit Go [int]. *)
Definition wrap64 (z : Z) : Z := (z + 2^63) mod 2^64 - 2^63.

(** [a * b] on Go [int]. *)
Definition imul (a b : Z) : Z := wrap64 (a * b).

(** [x++] on Go [int]. *)
Definition iinc (a : Z) : Z := wrap64 (a + 1).

(** * Data model *)

(** [board [][]int]: a slice of three rows of three cells.  Cell values:
    0 empty, 1 and -1 the two marks, 2 row tag, 3 column tag,
    4 main-diagonal tag, 5 anti-diagonal tag (see the [pieces] map). *)
Abbreviation board := (list (list Z)) (only parsing).

(** [m.board[x][y]]; the indices only ever come from the nine move keys
    of [Update], so they are within range. *)
Definition get (b : board) (x y : nat) : Z :=
  default 0 (b !! x ≫= fun row => row !! y).

(** [m.board[x][y] = v]. *)
Definition set (b : board) (x y : nat) (v : Z) : board :=
  alter (fun row => <[y := v]> row) x b.

(** A channel, identified by its Go reference: [make] gives a fresh one. *)
Definition chan := nat.

(** [type player struct]; the lipgloss styles and terminal strings are
    rendering data and are left out. *)
Record player := mkPlayer {
  name : string;
  score : Z;
  width : Z;
  height : Z;
  ch : option chan   (* nil or a channel *)
}.

(** The state of the bubbles text input used for naming. *)
Record textInput := mkTextInput {
  ti_value : string;
  ti_placeholder : string
}.

(** [type model struct]; [players [2]player] as a pair. *)
Record model := mkModel {
  board_of : board;
  currentPlayer : Z;
  view : Z;
  textInput_of : textInput;
  players : player * player
}.

Definition set_board (m : model) (b : board) : model :=
  mkModel b m.(currentPlayer) m.(view) m.(textInput_of) m.(players).
Definition set_currentPlayer (m : model) (c : Z) : model :=
  mkModel m.(board_of) c m.(view) m.(textInput_of) m.(players).
Definition set_view (m : model) (v : Z) : model :=
  mkModel m.(board_of) m.(currentPlayer) v m.(textInput_of) m.(players).
Definition set_textInput (m : model) (t : textInput) : model :=
  mkModel m.(board_of) m.(currentPlayer) m.(view) t m.(players).
Definition set_players (m : model) (ps : player * player) : model :=
  mkModel m.(board_of) m.(currentPlayer) m.(view) m.(textInput_of) ps.

Definition set_score (p : player) (s : Z) : player :=
  mkPlayer p.(name) s p.(width) p.(height) p.(ch).
Definition set_name (p : player) (n : string) : player :=
  mkPlayer n p.(score) p.(width) p.(height) p.(ch).
Definition set_size (p : player) (w h : Z) : player :=
  mkPlayer p.(name) p.(score) w h p.(ch).
Definition set_ch (p : player) (c : option chan) : player :=
  mkPlayer p.(name) p.(score) p.(width) p.(height) c.

(** * [updateCell] *)

(** The first statement of [updateCell]: an empty cell gets the mark of
    [currentPlayer] and the turn flips; a marked cell is toggled and the
    turn stays; a tagged cell is left alone. *)
Definition place (b : board) (x y : nat) (cp : Z) : board * Z :=
  let cell := get b x y in
  if cell =? 0 then (set b x y cp, imul cp (-1))
  else if (cell =? 1) || (cell =? -1) then (set b x y (imul cell (-1)), cp)
  else (b, cp).

(** "check if row is the same player" *)
Definition check_row (x : nat) (st : board * bool) : board * bool :=
  let '(b, victory) := st in
  if (get b x 0 =? get b x 1) && (get b x 1 =? get b x 2)
  then (set (set (set b x 0 2) x 1 2) x 2 2, true)
  else (b, victory).

(** "check if column is the same player" *)
Definition check_col (y : nat) (st : board * bool) : board * bool :=
  let '(b, victory) := st in
  if (get b 0 y =? get b 1 y) && (get b 1 y =? get b 2 y)
  then (set (set (set b 0 y 3) 1 y 3) 2 y 3, true)
  else (b, victory).

(** "check if diagonal is the same player" *)
Definition check_diag (st : board * bool) : board * bool :=
  let '(b, victory) := st in
  if (get b 0 0 =? get b 1 1) && (get b 1 1 =? get b 2 2) then
    if (get b 1 1 =? 1) || (get b 1 1 =? -1)
    then (set (set (set b 0 0 4) 1 1 4) 2 2 4, true)
    else (b, victory)
  else (b, victory).

(** "Check secondary diagonal" *)
Definition check_anti (st : board * bool) : board * bool :=
  let '(b, victory) := st in
  if (get b 0 2 =? get b 1 1) && (get b 1 1 =? get b 2 0) then
    if (get b 1 1 =? 1) || (get b 1 1 =? -1)
    then (set (set (set b 0 2 5) 1 1 5) 2 0 5, true)
    else (b, victory)
  else (b, victory).

(** The four line checks in source order, starting with [victory = false]. *)
Definition check_lines (b : board) (x y : nat) : board * bool :=
  check_anti (check_diag (check_col y (check_row x (b, false)))).

Definition incr_score (p : player) : player := set_score p (iinc p.(score)).

(** [func updateCell(m *model, x int, y int)]. *)
Definition updateCell (m : model) (x y : nat) : model :=
  let '(b0, cp) := place m.(board_of) x y m.(currentPlayer) in
  let '(b1, victory) := check_lines b0 x y in
  let ps := m.(players) in
  let ps' :=
    if victory then
      (if negb (cp =? 1) then (incr_score ps.1, ps.2)
       else (ps.1, incr_score ps.2))
    else ps in
  mkModel b1 cp m.(view) m.(textInput_of) ps'.

(** * Initial model *)

Definition empty_board : board := [[0;0;0];[0;0;0];[0;0;0]].

Definition zero_player : player := mkPlayer "" 0 0 0 None.

(** [newBubbleteaModel()]. *)
Definition newBubbleteaModel : model :=
  mkModel empty_board 1 1 (mkTextInput "" "") (zero_player, zero_player).

(** * [Update] (the Bubble Tea message handler) *)

(** Messages the handler distinguishes. *)
Inductive msg :=
| RedrawMsg
| WindowSizeMsg (w h : Z)
| KeyMsg (k : string)
| OtherMsg.

(** Commands returned to Bubble Tea. *)
Inductive cmd :=
| QuitCmd
| TextInputCmd.

(** The move keys of view 1: [q w e / a s d / z x c]. *)
Definition move_key (k : string) : option (nat * nat) :=
  if String.eqb k "q" then Some (0, 0)%nat
  else if String.eqb k "w" then Some (0, 1)%nat
  else if String.eqb k "e" then Some (0, 2)%nat
  else if String.eqb k "a" then Some (1, 0)%nat
  else if String.eqb k "s" then Some (1, 1)%nat
  else if String.eqb k "d" then Some (1, 2)%nat
  else if String.eqb k "z" then Some (2, 0)%nat
  else if String.eqb k "x" then Some (2, 1)%nat
  else if String.eqb k "c" then Some (2, 2)%nat
  else None.

(** [textInput.Reset()]: clears the value. *)
Definition ti_reset (t : textInput) : textInput := mkTextInput "" t.(ti_placeholder).

Section Handler.
(** [m.textInput.Update(msg)] of the bubbles library, for any other key
    while naming. *)
Variable ti_update : textInput -> string -> textInput.

(** [func (m model) Update(msg tea.Msg) (tea.Model, tea.Cmd)]. *)
Definition Update (m : model) (ms : msg) : model * option cmd :=
  match ms with
  | RedrawMsg => (m, None)
  | WindowSizeMsg w h =>
      (set_players m (set_size m.(players).1 w h, m.(players).2), None)
  | KeyMsg k =>
      if m.(view) =? 0 then
        if String.eqb k "enter" then
          if m.(currentPlayer) =? 1 then
            let t := m.(textInput_of) in
            let ps := (set_name m.(players).1 t.(ti_value), m.(players).2) in
            let t' := ti_reset (mkTextInput t.(ti_value) "Player 2 name?") in
            (set_currentPlayer (set_textInput (set_players m ps) t')
               (imul m.(currentPlayer) (-1)), None)
          else if m.(currentPlayer) =? -1 then
            let ps := (m.(players).1, set_name m.(players).2 m.(textInput_of).(ti_value)) in
            (set_view (set_currentPlayer (set_players m ps)
               (imul m.(currentPlayer) (-1))) 1, None)
          else (m, None)
        else (set_textInput m (ti_update m.(textInput_of) k), Some TextInputCmd)
      else if m.(view) =? 1 then
        if String.eqb k "ctrl+c" then (m, Some QuitCmd)
        else match move_key k with
        | Some (x, y) => (updateCell m x y, None)
        | None =>
            if String.eqb k "0" then (set_view m 0, None)
            else if String.eqb k "1" then (set_view m 1, None)
            else if String.eqb k "2" then (set_view m 2, None)
            else if String.eqb k "esc" then (set_board m empty_board, None)
            else (m, None)
        end
      else (m, None)
  | OtherMsg => (m, None)
  end.
End Handler.

(** * Sessions *)

(** [type gameState struct]; the mutex is the atomicity of each function
    below, and a session reference [*ssh.Session] is its session id. *)
Record gameState := mkGameState {
  gs_players : option string * option string;
  gs_m : model;
  sessions : gmap string chan
}.

(** [RegisterSession(id, ch)]; the goroutine it starts only reads [ch]
    and does not touch the state. *)
Definition RegisterSession (gs : gameState) (id : string) (c : chan) : gameState :=
  let m := gs.(gs_m) in
  let ps :=
    if decide (m.(players).1.(ch) = None)
    then (set_ch m.(players).1 (Some c), m.(players).2)
    else (m.(players).1, set_ch m.(players).2 (Some c)) in
  mkGameState gs.(gs_players) (set_players m ps) (<[id := c]> gs.(sessions)).

(** [UnregisterSession(id)]. *)
Definition UnregisterSession (gs : gameState) (id : string) : gameState :=
  mkGameState gs.(gs_players) gs.(gs_m) (delete id gs.(sessions)).

(** Whether [teaHandler] kept the connection or called [s.Close()]. *)
Inductive outcome := Bound0 | Bound1 | Closed.

(** [teaHandler(s)] for a session [sid] of user [user] with terminal size
    [w] x [h] and a fresh channel [c] ([msgCh := make(chan tea.Msg)]);
    the deferred [UnregisterSession] runs when the handler returns. *)
Definition teaHandler (gs : gameState) (sid user : string) (w h : Z) (c : chan)
    : gameState * outcome :=
  let gs1 := RegisterSession gs sid c in
  let m := gs1.(gs_m) in
  let '(gs2, o) :=
    match gs1.(gs_players) with
    | (None, p1) =>
        (mkGameState (Some sid, p1)
           (set_players m (set_size (set_name m.(players).1 user) w h, m.(players).2))
           gs1.(sessions), Bound0)
    | (Some p0, None) =>
        (mkGameState (Some p0, Some sid)
           (set_players m (m.(players).1, set_size (set_name m.(players).2 user) w h))
           gs1.(sessions), Bound1)
    | (Some _, Some _) => (gs1, Closed)
    end in
  (UnregisterSession gs2 sid, o).

(** * Channels and [BroadcastMessage] *)

(** A Go channel: its capacity, its buffered values and whether a receiver
    is blocked on it. [make(chan tea.Msg)] is unbuffered (capacity 0). *)
Record chanState := mkChanState {
  cap : nat;
  buf : list msg;
  receiver_waiting : bool
}.

(** [ch <- v]: handed to a waiting receiver, else buffered if there is
    room; otherwise the sender blocks ([None]). *)
Definition send (c : chanState) (v : msg) : option chanState :=
  if c.(receiver_waiting) then Some (mkChanState c.(cap) c.(buf) false)
  else if (length c.(buf) <? c.(cap))%nat
  then Some (mkChanState c.(cap) (c.(buf) ++ [v]) false)
  else None.

Definition can_accept (c : chanState) : bool :=
  c.(receiver_waiting) || (length c.(buf) <? c.(cap))%nat.

Definition store_upd (st : chan -> chanState) (c : chan) (s : chanState)
    : chan -> chanState :=
  fun c' => if Nat.eqb c' c then s else st c'.

(** The [for _, ch := range gs.sessions { ch <- msg }] loop over the
    sessions in iteration order; [None] when a send blocks. *)
Fixpoint broadcast_list (st : chan -> chanState) (l : list (string * chan)) (v : msg)
    : option (chan -> chanState) :=
  match l with
  | [] => Some st
  | (_, c) :: l' =>
      match send (st c) v with
      | Some s => broadcast_list (store_upd st c s) l' v
      | None => None
      end
  end.

(** [BroadcastMessage(msg)]; Go's map iteration order is unspecified and
    the order of [map_to_list] stands for it: with distinct channels,
    whether the loop completes does not depend on the order. *)
Definition BroadcastMessage (gs : gameState) (st : chan -> chanState) (v : msg)
    : option (chan -> chanState) :=
  broadcast_list st (map_to_list gs.(sessions)) v.

(** * Rendering data and message runs *)

(** [var pieces = map[int]rune]: the glyph of each cell value, as Unicode
    code points (U+25CB, U+00D7, '-', '|', '\\', '/', ' '). *)
Definition pieces : gmap Z Z :=
  list_to_map [(1, 9675); (-1, 215); (2, 45); (3, 124); (4, 92); (5, 47); (0, 32)].

(** A session's Bubble Tea program feeding messages to [Update] one after
    the other. *)
Definition run_msgs (ti_update : textInput -> string -> textInput)
    (m : model) (ms : list msg) : model :=
  fold_left (fun m x => (Update ti_update m x).1) ms m.

(** * Specification vocabulary *)

(** A well-formed board: three rows of three cells. *)
Definition wf_board (b : board) : Prop :=
  length b = 3%nat /\ Forall (fun r => length r = 3%nat) b.

(** A placed player mark. *)
Definition mark (z : Z) : bool := (z =? 1) || (z =? -1).

(** A line: three cell coordinates. *)
Definition line := ((nat * nat) * (nat * nat) * (nat * nat))%type.

Definition row_line (x : nat) : line := ((x, 0), (x, 1), (x, 2))%nat.
Definition col_line (y : nat) : line := ((0, y), (1, y), (2, y))%nat.
Definition diag_line : line := ((0, 0), (1, 1), (2, 2))%nat.
Definition anti_line : line := ((0, 2), (1, 1), (2, 0))%nat.

(** The 8 lines of the grid. *)
Definition all_lines : list line :=
  [row_line 0; row_line 1; row_line 2; col_line 0; col_line 1; col_line 2;
   diag_line; anti_line].

(** A line whose three cells hold the same player mark. *)
Definition line_won (b : board) (l : line) : bool :=
  let '((i0, j0), (i1, j1), (i2, j2)) := l in
  (get b i0 j0 =? get b i1 j1) && (get b i1 j1 =? get b i2 j2) && mark (get b i1 j1).

Definition has_line (b : board) : bool := existsb (line_won b) all_lines.

(** The mark just written at [(x, y)] completes a line through that cell. *)
Definition completes (b : board) (x y : nat) : bool :=
  line_won b (row_line x) || line_won b (col_line y)
  || (Nat.eqb x y && line_won b diag_line)
  || (Nat.eqb (x + y) 2 && line_won b anti_line).

(** A run of moves and the models it passes through. *)
Definition moves (m : model) (l : list (nat * nat)) : model :=
  fold_left (fun m '(x, y) => updateCell m x y) l m.

Fixpoint trace (m : model) (l : list (nat * nat)) : list model :=
  m :: match l with
       | [] => []
       | (x, y) :: l' => trace (updateCell m x y) l'
       end.

(** A run of moves each on an Empty cell, none of which leaves a line of
    three equal marks on the board. *)
Inductive quiet : model -> list (nat * nat) -> Prop :=
| quiet_nil m : quiet m []
| quiet_cons m x y l :
    (x < 3)%nat -> (y < 3)%nat ->
    get m.(board_of) x y = 0 ->
    has_line (set m.(board_of) x y m.(currentPlayer)) = false ->
    quiet (updateCell m x y) l ->
    quiet m ((x, y) :: l).

(** * Board lemmas *)

Lemma get_set_cases (b : board) i j v x y :
  get (set b i j v) x y = v \/ get (set b i j v) x y = get b x y.
Proof.
  unfold get, set. rewrite list_lookup_alter.
  case_decide as Hi; [subst|by right].
  destruct (b !! x) as [r|]; simpl; [|by right].
  rewrite list_lookup_insert. case_decide; [by left|by right].
Qed.

Lemma get_set_ne (b : board) i j v x y :
  (i, j) <> (x, y) -> get (set b i j v) x y = get b x y.
Proof.
  intros Hne. unfold get, set. rewrite list_lookup_alter.
  case_decide as Hi; [subst|done].
  destruct (b !! x) as [r|]; simpl; [|done].
  rewrite list_lookup_insert_ne; [done|]. congruence.
Qed.

Lemma get_set_eq (b : board) x y v :
  (exists r, b !! x = Some r /\ (y < length r)%nat) ->
  get (set b x y v) x y = v.
Proof.
  intros (r & Hr & Hy). unfold get, set.
  rewrite list_lookup_alter_eq, Hr. simpl.
  by rewrite list_lookup_insert_eq.
Qed.

Lemma in_range_wf (b : board) x y :
  wf_board b -> (x < 3)%nat -> (y < 3)%nat ->
  exists r, b !! x = Some r /\ (y < length r)%nat.
Proof.
  intros [Hl Hf] Hx Hy.
  destruct (lookup_lt_is_Some_2 b x) as [r Hr]; [lia|].
  exists r. split; [done|].
  rewrite (Forall_lookup_1 _ _ _ _ Hf Hr). lia.
Qed.

Lemma in_range_nonzero (b : board) x y :
  get b x y <> 0 -> exists r, b !! x = Some r /\ (y < length r)%nat.
Proof.
  unfold get. intros H.
  destruct (b !! x) as [r|]; simpl in H; [|done].
  exists r. split; [done|].
  destruct (r !! y) eqn:E; simpl in H; [|done].
  by apply lookup_lt_Some in E.
Qed.

Lemma wf_set (b : board) i j v : wf_board b -> wf_board (set b i j v).
Proof.
  intros [Hl Hf]. unfold set. split.
  - by rewrite length_alter.
  - apply Forall_lookup_2. intros k r Hk.
    rewrite list_lookup_alter in Hk. case_decide; subst.
    + destruct (b !! k) as [r0|] eqn:E; simpl in Hk; [|done].
      injection Hk as <-. rewrite length_insert.
      exact (Forall_lookup_1 _ _ _ _ Hf E).
    + exact (Forall_lookup_1 _ _ _ _ Hf Hk).
Qed.

Example run_row0_win :
  let m := moves newBubbleteaModel [(0,0);(1,0);(0,1);(1,1);(0,2)]%nat in
  (m.(board_of), m.(currentPlayer), m.(players).1.(score), m.(players).2.(score))
  = ([[2;2;2];[-1;-1;0];[0;0;0]], -1, 1, 0).
Proof. reflexivity. Qed.

(** Every cell of [b'] is the cell of [b] or a line tag. *)
Definition retagged (b b' : board) : Prop :=
  forall x y, get b' x y = get b x y \/ (2 <= get b' x y <= 5).

Lemma retagged_refl b : retagged b b.
Proof. intros x y. by left. Qed.

Lemma retagged_trans b1 b2 b3 :
  retagged b1 b2 -> retagged b2 b3 -> retagged b1 b3.
Proof.
  intros H12 H23 x y.
  destruct (H23 x y) as [E|E]; [rewrite E|by right]. apply H12.
Qed.

Lemma retagged_set3 (b : board) i0 j0 i1 j1 i2 j2 t :
  2 <= t <= 5 ->
  retagged b (set (set (set b i0 j0 t) i1 j1 t) i2 j2 t).
Proof.
  intros Ht x y.
  destruct (get_set_cases (set (set b i0 j0 t) i1 j1 t) i2 j2 t x y) as [E|E];
    rewrite E; [by right|].
  destruct (get_set_cases (set b i0 j0 t) i1 j1 t x y) as [E'|E'];
    rewrite E'; [by right|].
  destruct (get_set_cases b i0 j0 t x y) as [E''|E'']; rewrite E''; [by right|by left].
Qed.

Lemma wf_set3 (b : board) i0 j0 i1 j1 i2 j2 t :
  wf_board b -> wf_board (set (set (set b i0 j0 t) i1 j1 t) i2 j2 t).
Proof. intros H. by do 3 apply wf_set. Qed.

(** The facts shared by the four line checks. *)
Ltac check_cases :=
  repeat match goal with
  | |- context [if ?c then _ else _] => destruct c
  end; simpl.


Lemma check_row_retag x st : retagged st.1 (check_row x st).1.
Proof.
  destruct st as [b v]; unfold check_row; check_cases;
    auto using retagged_refl, retagged_set3 with lia.
Qed.

Lemma check_col_retag y st : retagged st.1 (check_col y st).1.
Proof.
  destruct st as [b v]; unfold check_col; check_cases;
    auto using retagged_refl, retagged_set3 with lia.
Qed.

Lemma check_diag_retag st : retagged st.1 (check_diag st).1.
Proof.
  destruct st as [b v]; unfold check_diag; check_cases;
    auto using retagged_refl, retagged_set3 with lia.
Qed.

Lemma check_anti_retag st : retagged st.1 (check_anti st).1.
Proof.
  destruct st as [b v]; unfold check_anti; check_cases;
    auto using retagged_refl, retagged_set3 with lia.
Qed.

Lemma check_lines_retag b x y : retagged b (check_lines b x y).1.
Proof.
  unfold check_lines.
  eapply retagged_trans; [|apply check_anti_retag].
  eapply retagged_trans; [|apply check_diag_retag].
  eapply retagged_trans; [|apply check_col_retag].
  apply (check_row_retag x (b, false)).
Qed.

Lemma check_lines_victory b x y :
  completes b x y = true -> (check_lines b x y).2 = true.
Proof.
  unfold completes, line_won, row_line, col_line, diag_line, anti_line, mark.
  unfold check_lines, check_anti, check_diag, check_col, check_row.
  intros H.
  repeat match goal with
  | |- context [if ?c then _ else _] => destruct c eqn:?
  end; simpl; try reflexivity.
  all: repeat match goal with
       | E : ?c = false |- _ => rewrite E in H
       end.
  all: simpl in H; rewrite ?andb_false_r in H; simpl in H;
       rewrite ?andb_false_r, ?orb_false_r in H; discriminate H.
Qed.

Lemma wrap64_small z : -2^63 <= z < 2^63 -> wrap64 z = z.
Proof.
  intros Hz. unfold wrap64. rewrite Z.mod_small; lia.
Qed.

Lemma place_empty b x y cp :
  get b x y = 0 -> place b x y cp = (set b x y cp, imul cp (-1)).
Proof. intros H. unfold place. by rewrite H. Qed.

Lemma place_mark b x y cp :
  mark (get b x y) = true ->
  place b x y cp = (set b x y (imul (get b x y) (-1)), cp).
Proof.
  unfold mark, place. intros H.
  destruct (Z.eqb_spec (get b x y) 0) as [E|E]; [by rewrite E in H|].
  by rewrite H.
Qed.

Lemma imul_sign c : c = 1 \/ c = -1 -> imul c (-1) = - c.
Proof. intros [-> | ->]; reflexivity. Qed.

Lemma updateCell_unfold m x y :
  updateCell m x y =
  let '(b0, cp) := place m.(board_of) x y m.(currentPlayer) in
  let '(b1, victory) := check_lines b0 x y in
  mkModel b1 cp m.(view) m.(textInput_of)
    (if victory then
       (if negb (cp =? 1) then (incr_score m.(players).1, m.(players).2)
        else (m.(players).1, incr_score m.(players).2))
     else m.(players)).
Proof. reflexivity. Qed.

(** A text-input update for concrete runs: the typed key is appended. *)
Definition ti_append (t : textInput) (k : string) : textInput :=
  mkTextInput (t.(ti_value) ++ k) t.(ti_placeholder).

(** Player 0 (mark 1) holds (0,0),(0,1), player 1 (mark -1) holds
    (1,0),(1,1); player 0 to move. *)
Definition m_row0_threat : model :=
  moves newBubbleteaModel [(0,0);(1,0);(0,1);(1,1)]%nat.

(** Player 0 holds (0,0),(0,1), player 1 holds (0,2),(1,0); player 0 to
    move. *)
Definition m_toggle_threat : model :=
  moves newBubbleteaModel [(0,0);(0,2);(0,1);(1,0)]%nat.

(** ** C1 *)

(** Claim C1 (amended): a move on an Empty cell whose mark completes a
    line through that cell increments exactly one score by exactly 1, the
    score of the mover ([players[0]] when [currentPlayer] was 1 before the
    move, [players[1]] when it was -1), and leaves [view] unchanged: the
    code has no RoundOver phase. *)
Theorem updateCell_win_scores_mover (m : model) (x y : nat) :
  get m.(board_of) x y = 0 ->
  (m.(currentPlayer) = 1 \/ m.(currentPlayer) = -1) ->
  completes (set m.(board_of) x y m.(currentPlayer)) x y = true ->
  0 <= m.(players).1.(score) < 2^63 - 1 ->
  0 <= m.(players).2.(score) < 2^63 - 1 ->
  (updateCell m x y).(view) = m.(view) /\
  (updateCell m x y).(players) =
    (if m.(currentPlayer) =? 1
     then (set_score m.(players).1 (m.(players).1.(score) + 1), m.(players).2)
     else (m.(players).1, set_score m.(players).2 (m.(players).2.(score) + 1))).
Proof.
  intros Hc Hcp Hwin H0 H1.
  rewrite updateCell_unfold, place_empty by exact Hc.
  rewrite (imul_sign _ Hcp).
  pose proof (check_lines_victory _ _ _ Hwin) as Hv.
  destruct (check_lines (set (board_of m) x y (currentPlayer m)) x y) as [b1 v].
  simpl in Hv. subst v. split; [reflexivity|].
  unfold incr_score, iinc.
  destruct Hcp as [-> | ->]; simpl.
  - rewrite wrap64_small by lia. reflexivity.
  - rewrite wrap64_small by lia. reflexivity.
Qed.

Lemma updateCell_win_scores_mover_witness :
  get m_row0_threat.(board_of) 0 2 = 0 /\
  (updateCell m_row0_threat 0 2).(view) = m_row0_threat.(view) /\
  (updateCell m_row0_threat 0 2).(players) =
    (set_score m_row0_threat.(players).1 1, m_row0_threat.(players).2).
Proof.
  split; [reflexivity|].
  destruct (updateCell_win_scores_mover m_row0_threat 0 2
              ltac:(reflexivity) ltac:(left; reflexivity) ltac:(reflexivity)
              ltac:(change (0 <= 0 < 2^63 - 1); lia)
              ltac:(change (0 <= 0 < 2^63 - 1); lia)) as [Hv Hp].
  split; [exact Hv|]. rewrite Hp. reflexivity.
Defined.

(** Claim C1 fails as stated: after the winning move [e] the view is
    still 1 (Playing) and the next move key is still applied; and when
    the winning mark comes from toggling, the point goes to [players[1]]
    although [currentPlayer] was 1 before the move and 1 is the mark
    written. *)
Lemma updateCell_win_scores_mover_counterexample :
  let m1 := (Update ti_append m_row0_threat (KeyMsg "e")).1 in
  m1.(players).1.(score) = 1 /\ m1.(view) = 1 /\
  get (Update ti_append m1 (KeyMsg "c")).1.(board_of) 2 2 = -1 /\
  let m2 := (Update ti_append m_toggle_threat (KeyMsg "e")).1 in
  m_toggle_threat.(currentPlayer) = 1 /\
  get m2.(board_of) 0 0 = 2 /\
  m2.(players).1.(score) = 0 /\ m2.(players).2.(score) = 1.
Proof. vm_compute. repeat split; reflexivity. Qed.

(** * Lemmas on [updateCell] *)

Lemma updateCell_board m x y :
  (updateCell m x y).(board_of) =
  (check_lines (place m.(board_of) x y m.(currentPlayer)).1 x y).1.
Proof.
  rewrite updateCell_unfold.
  destruct (place _ _ _ _) as [b0 cp]. simpl.
  by destruct (check_lines b0 x y).
Qed.

Lemma updateCell_currentPlayer m x y :
  (updateCell m x y).(currentPlayer) =
  (place m.(board_of) x y m.(currentPlayer)).2.
Proof.
  rewrite updateCell_unfold.
  destruct (place _ _ _ _) as [b0 cp]. simpl.
  by destruct (check_lines b0 x y).
Qed.

Lemma line_in_has_line b l :
  In l all_lines -> line_won b l = true -> has_line b = true.
Proof. intros Hin Hl. apply existsb_exists. eauto. Qed.

Lemma eqb_chain_eq (a b c : Z) :
  (a =? b) && (b =? c) = true -> a = b /\ b = c.
Proof. intros H. apply andb_prop in H as [H1 H2]. by apply Z.eqb_eq in H1, H2. Qed.

(** With a mark at [(x, y)] and no line of marks anywhere, no check fires. *)
Lemma check_lines_quiet b x y :
  (x < 3)%nat -> (y < 3)%nat ->
  mark (get b x y) = true -> has_line b = false ->
  check_lines b x y = (b, false).
Proof.
  intros Hx Hy Hm Hl.
  assert (Hrow : (get b x 0 =? get b x 1) && (get b x 1 =? get b x 2) = false).
  { destruct ((get b x 0 =? get b x 1) && (get b x 1 =? get b x 2)) eqn:E; [|done].
    rewrite <- Hl. symmetry. apply (line_in_has_line _ (row_line x)).
    - destruct x as [|[|[|]]]; [| | |lia]; simpl; tauto.
    - simpl. rewrite E. simpl. apply eqb_chain_eq in E as [E1 E2].
      destruct y as [|[|[|]]]; [| | |lia]; congruence. }
  assert (Hcol : (get b 0 y =? get b 1 y) && (get b 1 y =? get b 2 y) = false).
  { destruct ((get b 0 y =? get b 1 y) && (get b 1 y =? get b 2 y)) eqn:E; [|done].
    rewrite <- Hl. symmetry. apply (line_in_has_line _ (col_line y)).
    - destruct y as [|[|[|]]]; [| | |lia]; simpl; tauto.
    - simpl. rewrite E. simpl. apply eqb_chain_eq in E as [E1 E2].
      destruct x as [|[|[|]]]; [| | |lia]; congruence. }
  assert (Hdiag : (get b 0 0 =? get b 1 1) && (get b 1 1 =? get b 2 2)
                  && mark (get b 1 1) = false).
  { destruct (_ && _ && _) eqn:E; [|done].
    rewrite <- Hl. symmetry. apply (line_in_has_line _ diag_line); [simpl; tauto|exact E]. }
  assert (Hanti : (get b 0 2 =? get b 1 1) && (get b 1 1 =? get b 2 0)
                  && mark (get b 1 1) = false).
  { destruct ((get b 0 2 =? get b 1 1) && (get b 1 1 =? get b 2 0)
              && mark (get b 1 1)) eqn:E; [|done].
    rewrite <- Hl. symmetry. apply (line_in_has_line _ anti_line); [simpl; tauto|exact E]. }
  unfold mark in Hdiag, Hanti.
  unfold check_lines, check_row, check_col, check_diag, check_anti.
  rewrite Hrow, Hcol.
  destruct ((get b 0 0 =? get b 1 1) && (get b 1 1 =? get b 2 2));
    [rewrite andb_true_l in Hdiag; rewrite Hdiag|];
  (destruct ((get b 0 2 =? get b 1 1) && (get b 1 1 =? get b 2 0));
    [rewrite andb_true_l in Hanti; rewrite Hanti|]); reflexivity.
Qed.

Lemma tag_not_small (v c : Z) : 2 <= v <= 5 -> c <= 1 -> v <> c.
Proof. lia. Qed.

(** The board after the five opening moves of [run_row0_win]: row 0 is
    tagged, player 1 to move. *)
Definition m_row0_won : model :=
  moves newBubbleteaModel [(0,0);(1,0);(0,1);(1,1);(0,2)]%nat.

(** ** C2 *)

(** Claim C2 (amended): [updateCell] has no terminal state.  Whatever
    tags earlier wins left on a well-formed board, a move on a cell that
    is Empty or holds a mark changes that cell (it gets the mover's mark
    or the opposite mark, possibly retagged by a line check). *)
Theorem updateCell_no_terminal_state (m : model) (x y : nat) :
  wf_board m.(board_of) -> (x < 3)%nat -> (y < 3)%nat ->
  (m.(currentPlayer) = 1 \/ m.(currentPlayer) = -1) ->
  (get m.(board_of) x y = 0 \/ mark (get m.(board_of) x y) = true) ->
  get (updateCell m x y).(board_of) x y <> get m.(board_of) x y.
Proof.
  intros Hwf Hx Hy Hcp Hc. rewrite updateCell_board.
  set (b := board_of m) in *.
  destruct Hc as [Hc|Hc].
  - rewrite place_empty by exact Hc. simpl.
    destruct (check_lines_retag (set b x y (currentPlayer m)) x y x y) as [E|E].
    + rewrite E, get_set_eq by (apply in_range_wf; auto). lia.
    + rewrite Hc. lia.
  - rewrite place_mark by exact Hc. simpl.
    assert (Hm : get b x y = 1 \/ get b x y = -1).
    { unfold mark in Hc. apply orb_prop in Hc as [H|H]; apply Z.eqb_eq in H; auto. }
    destruct (check_lines_retag (set b x y (imul (get b x y) (-1))) x y x y) as [E|E].
    + rewrite E, get_set_eq.
      * rewrite imul_sign by exact Hm. lia.
      * apply in_range_nonzero. lia.
    + apply tag_not_small; [exact E|lia].
Qed.

Lemma updateCell_no_terminal_state_witness :
  get (updateCell m_row0_won 2 2).(board_of) 2 2 <> get m_row0_won.(board_of) 2 2.
Proof.
  apply updateCell_no_terminal_state.
  - split; [reflexivity|]. repeat constructor.
  - lia.
  - lia.
  - right. reflexivity.
  - left. reflexivity.
Defined.

(** Claim C2 fails as stated: after the win on row 0 (cells tagged 2) the
    move [c] still writes player 1's mark on (2,2). *)
Lemma updateCell_no_terminal_state_counterexample :
  get m_row0_won.(board_of) 0 0 = 2 /\
  get m_row0_won.(board_of) 2 2 = 0 /\
  get (Update ti_append m_row0_won (KeyMsg "c")).1.(board_of) 2 2 = -1.
Proof. vm_compute. repeat split; reflexivity. Qed.

(** ** C3 *)

(** Claim C3 (code defect): the row and column checks lack the mark guard
    of the diagonal checks, so a row already tagged 2 by a win counts as a
    new win: pressing [q] on the tagged cell (0,0) scores again for
    [players[0]]. *)
Theorem updateCell_tag_row_rewins :
  get m_row0_won.(board_of) 0 0 = 2 /\
  m_row0_won.(players).1.(score) = 1 /\
  let m' := (Update ti_append m_row0_won (KeyMsg "q")).1 in
  m'.(board_of) = m_row0_won.(board_of) /\
  m'.(players).1.(score) = 2 /\ m'.(players).2.(score) = 0.
Proof. vm_compute. repeat split; reflexivity. Qed.

(** ** C7 *)

(** Claim C7: a move on a cell holding a player mark writes the opposite
    mark there; the cell then holds that opposite mark unless the new mark
    completes a line (which the line checks then tag), and in no case is
    the move rejected or the cell left as it was. *)
Theorem updateCell_toggles_marked_cell (m : model) (x y : nat) :
  (x < 3)%nat -> (y < 3)%nat ->
  mark (get m.(board_of) x y) = true ->
  let b' := set m.(board_of) x y (- get m.(board_of) x y) in
  (place m.(board_of) x y m.(currentPlayer)).1 = b' /\
  get b' x y = - get m.(board_of) x y /\
  (has_line b' = false -> (updateCell m x y).(board_of) = b') /\
  get (updateCell m x y).(board_of) x y <> get m.(board_of) x y.
Proof.
  intros Hx Hy Hc b'.
  set (b := board_of m) in *.
  assert (Hm : get b x y = 1 \/ get b x y = -1).
  { unfold mark in Hc. apply orb_prop in Hc as [H|H]; apply Z.eqb_eq in H; auto. }
  assert (Hr := in_range_nonzero b x y ltac:(lia)).
  assert (Hp : (place b x y (currentPlayer m)).1 = b').
  { rewrite place_mark by exact Hc. simpl. by rewrite imul_sign by exact Hm. }
  assert (Hg : get b' x y = - get b x y) by (apply get_set_eq; exact Hr).
  split; [exact Hp|]. split; [exact Hg|]. split.
  - intros Hl. rewrite updateCell_board. fold b. rewrite Hp.
    rewrite check_lines_quiet; [reflexivity|exact Hx|exact Hy| |exact Hl].
    rewrite Hg. destruct Hm as [-> | ->]; reflexivity.
  - rewrite updateCell_board. fold b. rewrite Hp.
    destruct (check_lines_retag b' x y x y) as [E|E].
    + rewrite E, Hg. lia.
    + apply tag_not_small; [exact E|lia].
Qed.

Lemma updateCell_toggles_marked_cell_witness :
  get (updateCell m_row0_threat 0 0).(board_of) 0 0 = -1.
Proof.
  destruct (updateCell_toggles_marked_cell m_row0_threat 0 0
              ltac:(lia) ltac:(lia) ltac:(reflexivity)) as (_ & Hg & Hq & _).
  rewrite Hq; [exact Hg|reflexivity].
Defined.

(** ** C10 *)

(** Claim C10: a move on a cell holding a mark (the toggle) leaves
    [currentPlayer] unchanged; [currentPlayer] changes exactly when the
    cell was Empty. *)
Theorem updateCell_toggle_keeps_turn (m : model) (x y : nat) :
  (m.(currentPlayer) = 1 \/ m.(currentPlayer) = -1) ->
  (mark (get m.(board_of) x y) = true ->
   (updateCell m x y).(currentPlayer) = m.(currentPlayer)) /\
  ((updateCell m x y).(currentPlayer) <> m.(currentPlayer) <->
   get m.(board_of) x y = 0).
Proof.
  intros Hcp. rewrite updateCell_currentPlayer. unfold place.
  destruct (Z.eqb_spec (get (board_of m) x y) 0) as [E|E]; simpl.
  - rewrite imul_sign by exact Hcp. rewrite E. simpl.
    split; [discriminate|]. split; [intros _; reflexivity|intros _; lia].
  - unfold mark.
    destruct ((get (board_of m) x y =? 1) || (get (board_of m) x y =? -1)); simpl;
      split; [reflexivity| |discriminate|]; split; intros H; congruence.
Qed.

Lemma updateCell_toggle_keeps_turn_witness :
  (updateCell m_row0_threat 0 0).(currentPlayer) = m_row0_threat.(currentPlayer).
Proof.
  apply (updateCell_toggle_keeps_turn m_row0_threat 0 0 ltac:(left; reflexivity)).
  reflexivity.
Defined.

(** * Quiet runs *)

Lemma quiet_step m x y :
  wf_board m.(board_of) -> (x < 3)%nat -> (y < 3)%nat ->
  (m.(currentPlayer) = 1 \/ m.(currentPlayer) = -1) ->
  get m.(board_of) x y = 0 ->
  has_line (set m.(board_of) x y m.(currentPlayer)) = false ->
  updateCell m x y =
  mkModel (set m.(board_of) x y m.(currentPlayer)) (- m.(currentPlayer))
    m.(view) m.(textInput_of) m.(players).
Proof.
  intros Hwf Hx Hy Hcp Hc Hl.
  rewrite updateCell_unfold, place_empty by exact Hc.
  rewrite (imul_sign _ Hcp).
  rewrite check_lines_quiet; [reflexivity|exact Hx|exact Hy| |exact Hl].
  rewrite get_set_eq by (apply in_range_wf; auto).
  destruct Hcp as [-> | ->]; reflexivity.
Qed.

Lemma trace_head m l : trace m l !! 0%nat = Some m.
Proof. by destruct l as [|[]]. Qed.

(** The invariant of a quiet run: a well-formed board, a turn in
    {1, -1}, and each move flips the turn and keeps both scores. *)
Lemma quiet_trace m l :
  wf_board m.(board_of) ->
  (m.(currentPlayer) = 1 \/ m.(currentPlayer) = -1) ->
  quiet m l ->
  forall i a a', trace m l !! i = Some a -> trace m l !! S i = Some a' ->
  a'.(currentPlayer) = - a.(currentPlayer) /\
  (a.(currentPlayer) = 1 \/ a.(currentPlayer) = -1) /\
  a'.(players).1.(score) = a.(players).1.(score) /\
  a'.(players).2.(score) = a.(players).2.(score).
Proof.
  intros Hwf Hcp Hq. revert Hwf Hcp.
  induction Hq as [m|m x y l Hx Hy Hc Hl Hq IH]; intros Hwf Hcp i a a' Ha Ha'.
  - destruct i; discriminate Ha'.
  - simpl in Ha, Ha'.
    pose proof (quiet_step m x y Hwf Hx Hy Hcp Hc Hl) as Hs.
    destruct i as [|i].
    + injection Ha as <-. rewrite trace_head in Ha'. injection Ha' as <-.
      rewrite Hs. simpl. auto.
    + apply (IH ltac:(rewrite Hs; simpl; by apply wf_set)
                ltac:(rewrite Hs; simpl; lia) i a a' Ha Ha').
Qed.

Lemma quiet_moves m l :
  wf_board m.(board_of) ->
  (m.(currentPlayer) = 1 \/ m.(currentPlayer) = -1) ->
  quiet m l ->
  (moves m l).(view) = m.(view) /\ (moves m l).(players) = m.(players).
Proof.
  intros Hwf Hcp Hq. revert Hwf Hcp.
  induction Hq as [m|m x y l Hx Hy Hc Hl Hq IH]; intros Hwf Hcp; [done|].
  pose proof (quiet_step m x y Hwf Hx Hy Hcp Hc Hl) as Hs.
  simpl. fold (moves (updateCell m x y) l).
  destruct IH as [Hv Hp].
  - rewrite Hs. simpl. by apply wf_set.
  - rewrite Hs. simpl. lia.
  - rewrite Hv, Hp, Hs. done.
Qed.

(** Key presses fed to [Update] one after the other. *)
Definition keys (m : model) (ks : list string) : model :=
  fold_left (fun m k => (Update ti_append m (KeyMsg k)).1) ks m.

(** Nine alternating moves filling the board with no line of marks. *)
Definition draw_moves : list (nat * nat) :=
  [(0,0);(0,1);(0,2);(1,1);(1,0);(1,2);(2,1);(2,0);(2,2)]%nat.
Definition draw_keys : list string :=
  ["q";"w";"e";"s";"a";"d";"x";"z";"c"].

Lemma wf_empty_board : wf_board empty_board.
Proof. split; [reflexivity|]. repeat constructor. Qed.

Lemma quiet_draw : quiet newBubbleteaModel draw_moves.
Proof. repeat (constructor; [lia|lia|vm_compute; reflexivity|vm_compute; reflexivity|]). constructor. Qed.

(** ** C8 *)

(** Claim C8: along a run of moves each on an Empty cell, none of which
    leaves a line of three equal marks, every move flips [currentPlayer]
    between 1 and -1 and changes neither score. *)
Theorem quiet_run_alternates (m : model) (l : list (nat * nat)) :
  wf_board m.(board_of) ->
  (m.(currentPlayer) = 1 \/ m.(currentPlayer) = -1) ->
  quiet m l ->
  forall (i : nat) (a a' : model),
  trace m l !! i = Some a -> trace m l !! S i = Some a' ->
  a'.(currentPlayer) = - a.(currentPlayer) /\
  (a.(currentPlayer) = 1 \/ a.(currentPlayer) = -1) /\
  a'.(players).1.(score) = a.(players).1.(score) /\
  a'.(players).2.(score) = a.(players).2.(score).
Proof. exact (quiet_trace m l). Qed.

Lemma quiet_run_alternates_witness :
  (moves newBubbleteaModel (take 3 draw_moves)).(currentPlayer) = -1 /\
  (moves newBubbleteaModel (take 4 draw_moves)).(currentPlayer) = 1 /\
  (moves newBubbleteaModel (take 4 draw_moves)).(players).1.(score) = 0.
Proof.
  destruct (quiet_run_alternates newBubbleteaModel draw_moves wf_empty_board
              ltac:(left; reflexivity) quiet_draw 3
              (moves newBubbleteaModel (take 3 draw_moves))
              (moves newBubbleteaModel (take 4 draw_moves))
              ltac:(reflexivity) ltac:(reflexivity)) as (H1 & H2 & H3 & _).
  split; [|split].
  - vm_compute. reflexivity.
  - rewrite H1. vm_compute. reflexivity.
  - rewrite H3. vm_compute. reflexivity.
Defined.

(** ** C4 *)

(** Claim C4 (amended): a run of moves each on an Empty cell, none of
    which leaves a line of three equal marks (in particular one filling
    the nine cells), changes neither score; the code has no Draw outcome
    and no RoundOver phase: [view] is left as it was. *)
Theorem quiet_run_no_draw_state (m : model) (l : list (nat * nat)) :
  wf_board m.(board_of) ->
  (m.(currentPlayer) = 1 \/ m.(currentPlayer) = -1) ->
  quiet m l ->
  (moves m l).(view) = m.(view) /\
  (moves m l).(players).1.(score) = m.(players).1.(score) /\
  (moves m l).(players).2.(score) = m.(players).2.(score).
Proof.
  intros Hwf Hcp Hq.
  destruct (quiet_moves m l Hwf Hcp Hq) as [Hv Hp].
  rewrite Hv, Hp. auto.
Qed.

Lemma quiet_run_no_draw_state_witness :
  (moves newBubbleteaModel draw_moves).(view) = 1 /\
  (moves newBubbleteaModel draw_moves).(players).1.(score) = 0 /\
  (moves newBubbleteaModel draw_moves).(players).2.(score) = 0.
Proof.
  exact (quiet_run_no_draw_state newBubbleteaModel draw_moves wf_empty_board
           ltac:(left; reflexivity) quiet_draw).
Defined.

(** Claim C4 fails as stated: after the nine keys that fill the board
    with no line, the view is still 1 (Playing) and the next key [q] is
    still applied (it toggles (0,0)). *)
Lemma quiet_run_no_draw_state_counterexample :
  let m := keys newBubbleteaModel draw_keys in
  m.(board_of) = [[1;-1;1];[1;-1;-1];[-1;1;1]] /\
  m.(view) = 1 /\
  get (Update ti_append m (KeyMsg "q")).1.(board_of) 0 0 = -1.
Proof. vm_compute. repeat split; reflexivity. Qed.

(** ** C9 *)

(** Claim C9: the round reset ([esc] while playing, view 1) sets all nine
    cells to Empty and leaves both players, scores included, unchanged. *)
Theorem esc_resets_board_keeps_scores
    (ti_update : textInput -> string -> textInput) (m : model) :
  m.(view) = 1 ->
  let m' := (Update ti_update m (KeyMsg "esc")).1 in
  (forall i j, (i < 3)%nat -> (j < 3)%nat -> get m'.(board_of) i j = 0) /\
  m'.(players).1.(score) = m.(players).1.(score) /\
  m'.(players).2.(score) = m.(players).2.(score).
Proof.
  intros Hv. unfold Update. rewrite Hv. simpl.
  split; [|split; reflexivity].
  intros i j Hi Hj.
  destruct i as [|[|[|]]]; [| | |lia]; destruct j as [|[|[|]]]; [| | |lia| | | |lia| | | |lia];
    reflexivity.
Qed.

Lemma esc_resets_board_keeps_scores_witness :
  (Update ti_append m_row0_won (KeyMsg "esc")).1.(players).1.(score) = 1.
Proof.
  destruct (esc_resets_board_keeps_scores ti_append m_row0_won ltac:(reflexivity))
    as (_ & H & _).
  rewrite H. reflexivity.
Defined.

(** * Sessions *)

Definition gs_init : gameState :=
  mkGameState (None, None) newBubbleteaModel ∅.

(** Sessions A, B and C connecting in turn, with channels 1, 2 and 3. *)
Definition connect_A := teaHandler gs_init "A" "alice" 80 24 1%nat.
Definition connect_B := teaHandler connect_A.1 "B" "bob" 80 24 2%nat.
Definition connect_C := teaHandler connect_B.1 "C" "carol" 80 24 3%nat.

(** ** C5 *)

(** Claim C5 (code defect): [RegisterSession] binds the channel of every
    session after the first to slot 1 without checking that slot 1 is
    free, unlike the slot binding in [teaHandler]; the third session is
    closed but has already replaced B's channel by its own. *)
Theorem third_session_overwrites_slot1_channel :
  connect_A.2 = Bound0 /\ connect_B.2 = Bound1 /\ connect_C.2 = Closed /\
  connect_B.1.(gs_m).(players).1.(ch) = Some 1%nat /\
  connect_B.1.(gs_m).(players).2.(ch) = Some 2%nat /\
  connect_C.1.(gs_m).(players).1.(ch) = Some 1%nat /\
  connect_C.1.(gs_m).(players).2.(ch) = Some 3%nat /\
  connect_C.1.(gs_m).(players).2.(name) = "bob"%string.
Proof. vm_compute. repeat split; reflexivity. Qed.

(** * Broadcast *)

Lemma send_is_Some c v : is_Some (send c v) <-> can_accept c = true.
Proof.
  unfold send, can_accept.
  destruct (receiver_waiting c); simpl;
    [|destruct (length (buf c) <? cap c)%nat]; simpl; split; intros H;
    first [reflexivity | eexists; reflexivity
          | destruct H; discriminate | discriminate H].
Qed.

Lemma broadcast_list_completes (st : chan -> chanState) (l : list (string * chan)) v :
  NoDup l.*2 ->
  is_Some (broadcast_list st l v) <-> Forall (fun p => can_accept (st p.2) = true) l.
Proof.
  revert st. induction l as [|[k c] l IH]; intros st Hnd; cbn [broadcast_list].
  - split; [constructor|eauto].
  - rewrite fmap_cons in Hnd. apply NoDup_cons in Hnd as [Hc Hnd].
    rewrite Forall_cons. cbn [snd] in *.
    destruct (send (st c) v) as [s|] eqn:Es.
    + assert (Ha : can_accept (st c) = true) by (apply (proj1 (send_is_Some _ v)); rewrite Es; eauto).
      rewrite IH by exact Hnd.
      assert (Heq : Forall (fun p => can_accept (store_upd st c s p.2) = true) l <->
                    Forall (fun p => can_accept (st p.2) = true) l).
      { rewrite !Forall_forall.
        split; intros H [k' c'] Hin; specialize (H (k', c') Hin);
          unfold store_upd in *; cbn [snd] in *;
          (destruct (Nat.eqb_spec c' c) as [E|]; [subst c'|exact H]);
          exfalso; apply Hc; exact (list_elem_of_fmap_2 snd l (k', c) Hin). }
      rewrite Heq. split; [intros H; by split|intros [_ H]; exact H].
    + split; [intros [? H]; discriminate H|].
      intros [Ha _]. apply (proj2 (send_is_Some _ v)) in Ha. rewrite Es in Ha. by destruct Ha.
Qed.

(** Distinct sessions hold distinct channels ([teaHandler] makes a fresh
    one per session), so the channels of the registry are duplicate-free. *)
Lemma sessions_channels_NoDup (s : gmap string chan) :
  (forall i j c, s !! i = Some c -> s !! j = Some c -> i = j) ->
  NoDup (map_to_list s).*2.
Proof.
  intros Hinj. apply NoDup_alt. intros i j c Hi Hj.
  rewrite list_lookup_fmap in Hi, Hj.
  destruct (map_to_list s !! i) as [[k1 c1]|] eqn:E1; [|discriminate Hi].
  destruct (map_to_list s !! j) as [[k2 c2]|] eqn:E2; [|discriminate Hj].
  simpl in Hi, Hj. injection Hi as ->. injection Hj as ->.
  assert (H1 : s !! k1 = Some c)
    by (apply elem_of_map_to_list; exact (list_elem_of_lookup_2 _ _ _ E1)).
  assert (H2 : s !! k2 = Some c)
    by (apply elem_of_map_to_list; exact (list_elem_of_lookup_2 _ _ _ E2)).
  rewrite (Hinj k1 k2 c H1 H2) in E1.
  exact (proj1 (NoDup_alt _) (NoDup_map_to_list s) i j _ E1 E2).
Qed.

(** ** C6 *)

(** Claim C6 (amended): [BroadcastMessage] does a plain blocking send on
    every registered channel, with no drop-on-full: it completes exactly
    when every registered channel can take the value (a receiver waiting
    or room in its buffer) and blocks otherwise.  A move ([Update] on a
    move key in view 1) is applied by [updateCell] alone and never goes
    through [BroadcastMessage]. *)
Theorem broadcast_blocks_unless_all_ready
    (gs : gameState) (st : chan -> chanState) (v : msg)
    (ti_update : textInput -> string -> textInput) (m : model) (k : string) (x y : nat) :
  (forall i j c, gs.(sessions) !! i = Some c -> gs.(sessions) !! j = Some c -> i = j) ->
  (is_Some (BroadcastMessage gs st v) <->
   map_Forall (fun _ c => can_accept (st c) = true) gs.(sessions)) /\
  (m.(view) = 1 -> move_key k = Some (x, y) ->
   Update ti_update m (KeyMsg k) = (updateCell m x y, None)).
Proof.
  intros Hinj. split.
  - unfold BroadcastMessage.
    rewrite broadcast_list_completes by (apply sessions_channels_NoDup; exact Hinj).
    rewrite map_Forall_to_list.
    split; intros H; (eapply Forall_impl; [exact H|]); intros [i c]; simpl; auto.
  - intros Hv Hk. unfold Update. rewrite Hv. simpl.
    destruct (String.eqb_spec k "ctrl+c") as [->|_]; [discriminate Hk|].
    rewrite Hk. reflexivity.
Qed.

(** One registered session "X" on channel 7. *)
Definition gs_one_session : gameState :=
  mkGameState (None, None) newBubbleteaModel {["X" := 7%nat]}.

Definition chans_ready : chan -> chanState := fun _ => mkChanState 1 [] false.
Definition chans_full : chan -> chanState := fun _ => mkChanState 1 [RedrawMsg] false.

Lemma broadcast_blocks_unless_all_ready_witness :
  is_Some (BroadcastMessage gs_one_session chans_ready RedrawMsg).
Proof.
  destruct (broadcast_blocks_unless_all_ready gs_one_session chans_ready RedrawMsg
              ti_append newBubbleteaModel "q" 0 0) as [H _].
  - intros i j c Hi Hj. simpl in Hi, Hj.
    apply lookup_singleton_Some in Hi as [<- _].
    apply lookup_singleton_Some in Hj as [<- _]. reflexivity.
  - apply H. apply map_Forall_singleton. reflexivity.
Defined.

(** Claim C6 fails as stated: with the one subscriber's channel full, the
    broadcast does not complete (the sender blocks) instead of dropping
    the value. *)
Lemma broadcast_blocks_unless_all_ready_counterexample :
  BroadcastMessage gs_one_session chans_full RedrawMsg = None.
Proof. vm_compute. reflexivity. Qed.

(** * Further behaviour of the code *)

(** ** Cell values *)

(** Every cell of the board holds one of the values of [pieces]. *)
Definition cells_ok (b : board) : Prop := forall x y, -1 <= get b x y <= 5.

(** The invariant of a model reachable from [newBubbleteaModel]. *)
Definition model_ok (m : model) : Prop :=
  wf_board m.(board_of) /\ cells_ok m.(board_of) /\
  (m.(currentPlayer) = 1 \/ m.(currentPlayer) = -1).

Lemma check_lines_wf b x y : wf_board b -> wf_board (check_lines b x y).1.
Proof.
  intros H. unfold check_lines, check_anti, check_diag, check_col, check_row.
  check_cases; auto using wf_set3.
Qed.

Lemma cells_ok_set b i j v : cells_ok b -> -1 <= v <= 5 -> cells_ok (set b i j v).
Proof.
  intros Hb Hv x y. destruct (get_set_cases b i j v x y) as [E|E]; rewrite E; auto.
Qed.

Lemma cells_ok_retagged b b' : cells_ok b -> retagged b b' -> cells_ok b'.
Proof.
  intros Hb Hr x y. destruct (Hr x y) as [E|E]; [rewrite E; apply Hb|lia].
Qed.

Lemma updateCell_ok m x y : model_ok m -> model_ok (updateCell m x y).
Proof.
  intros (Hwf & Hc & Hcp). split; [|split].
  - rewrite updateCell_board. apply check_lines_wf.
    unfold place. check_cases; auto using wf_set.
  - rewrite updateCell_board. eapply cells_ok_retagged; [|apply check_lines_retag].
    unfold place.
    destruct (Z.eqb_spec (get (board_of m) x y) 0) as [E|E]; simpl;
      [apply cells_ok_set; [exact Hc|lia]|].
    destruct ((get (board_of m) x y =? 1) || (get (board_of m) x y =? -1)) eqn:E2;
      simpl; [|exact Hc].
    apply cells_ok_set; [exact Hc|].
    rewrite imul_sign; [lia|].
    apply orb_prop in E2 as [H|H]; apply Z.eqb_eq in H; auto.
  - rewrite updateCell_currentPlayer. unfold place.
    check_cases; try rewrite imul_sign by exact Hcp; lia.
Qed.

Lemma empty_board_ok : wf_board empty_board /\ cells_ok empty_board.
Proof.
  split; [exact wf_empty_board|]. intros x y.
  destruct x as [|[|[|x]]]; (destruct y as [|[|[|y]]]; [| | |]); cbn; try lia;
    (destruct x || destruct y); cbn; lia.
Qed.

Lemma Update_ok ti_update m ms :
  model_ok m -> model_ok (Update ti_update m ms).1.
Proof.
  intros Hm. pose proof Hm as (Hwf & Hc & Hcp).
  destruct ms as [|w h|k|]; simpl; try exact Hm.
  destruct (m.(view) =? 0).
  - destruct (String.eqb k "enter").
    + destruct (Z.eqb_spec m.(currentPlayer) 1) as [E|E];
        [|destruct (Z.eqb_spec m.(currentPlayer) (-1)) as [E'|E']]; simpl;
        try exact Hm; (split; [exact Hwf|split; [exact Hc|]]); simpl;
        rewrite imul_sign by exact Hcp; lia.
    + exact Hm.
  - destruct (m.(view) =? 1); [|exact Hm].
    destruct (String.eqb k "ctrl+c"); [exact Hm|].
    destruct (move_key k) as [[x y]|]; [by apply updateCell_ok|].
    repeat match goal with
    | |- context [if ?c then _ else _] => destruct c
    end; simpl; try exact Hm.
    split; [apply empty_board_ok|split; [apply empty_board_ok|exact Hcp]].
Qed.

Lemma pieces_defined z : -1 <= z <= 5 -> is_Some (pieces !! z).
Proof.
  intros Hz.
  assert (z = -1 \/ z = 0 \/ z = 1 \/ z = 2 \/ z = 3 \/ z = 4 \/ z = 5) as Hz' by lia.
  repeat destruct Hz' as [->|Hz']; subst; vm_compute; eauto.
Qed.

Lemma run_msgs_ok ti_update m ms :
  model_ok m -> model_ok (run_msgs ti_update m ms).
Proof.
  revert m. induction ms as [|x ms IH]; intros m Hm; [exact Hm|].
  apply IH. by apply Update_ok.
Qed.

(** Claim X1: whatever messages a session's program receives (any text
    input behaviour), the model stays a 3x3 board whose every cell has a
    glyph in [pieces], and [currentPlayer] stays 1 or -1. *)
Theorem run_msgs_cells_have_glyphs
    (ti_update : textInput -> string -> textInput) (ms : list msg) :
  let m := run_msgs ti_update newBubbleteaModel ms in
  wf_board m.(board_of) /\
  (forall x y, is_Some (pieces !! get m.(board_of) x y)) /\
  (m.(currentPlayer) = 1 \/ m.(currentPlayer) = -1).
Proof.
  destruct (run_msgs_ok ti_update newBubbleteaModel ms) as (Hwf & Hc & Hcp).
  - split; [apply empty_board_ok|split; [apply empty_board_ok|left; reflexivity]].
  - split; [exact Hwf|split; [|exact Hcp]].
    intros x y. apply pieces_defined, Hc.
Qed.

(** ** Key handling *)

Lemma naming_key_step
    (ti_update : textInput -> string -> textInput) (m : model) (k : string) :
  m.(view) = 0 -> k <> "enter"%string ->
  let r := Update ti_update m (KeyMsg k) in
  r.2 = Some TextInputCmd /\
  r.1.(textInput_of) = ti_update m.(textInput_of) k /\
  r.1.(board_of) = m.(board_of) /\ r.1.(currentPlayer) = m.(currentPlayer) /\
  r.1.(view) = m.(view) /\ r.1.(players) = m.(players).
Proof.
  intros Hv Hk r. unfold r, Update. rewrite Hv. cbn.
  destruct (String.eqb_spec k "enter") as [E|_]; [contradiction|].
  repeat split. exact Hv.
Qed.



Lemma run_msgs_cons ti_update m x ms :
  run_msgs ti_update m (x :: ms) = run_msgs ti_update (Update ti_update m x).1 ms.
Proof. reflexivity. Qed.

Lemma naming_keys_run ti_update m ks :
  m.(view) = 0 -> Forall (fun k => k <> "enter"%string) ks ->
  let m' := run_msgs ti_update m (map KeyMsg ks) in
  m'.(board_of) = m.(board_of) /\ m'.(currentPlayer) = m.(currentPlayer) /\
  m'.(view) = m.(view) /\ m'.(players) = m.(players).
Proof.
  revert m. induction ks as [|k ks IH]; intros m Hv Hks; [done|].
  cbn [map]. rewrite run_msgs_cons.
  apply Forall_cons in Hks as [Hk Hks].
  destruct (naming_key_step ti_update m k Hv Hk) as (_ & _ & Hb & Hc & Hv' & Hp).
  destruct (IH (Update ti_update m (KeyMsg k)).1 ltac:(rewrite Hv'; exact Hv) Hks)
    as (Hb2 & Hc2 & Hv2 & Hp2).
  rewrite Hb2, Hc2, Hv2, Hp2, Hb, Hc, Hv', Hp. done.
Qed.

(** Claim X3: the naming flow.  In view 0 with [currentPlayer] 1, [enter]
    stores the typed text as [players[0]]'s name, clears the input with
    the prompt "Player 2 name?" and hands over to -1; after any typing
    without [enter], the next [enter] stores the typed text as
    [players[1]]'s name, switches to the board (view 1) and gives the
    first move back to 1; board and scores are untouched. *)
Theorem naming_flow
    (ti_update : textInput -> string -> textInput) (m : model) (ks : list string) :
  m.(view) = 0 -> m.(currentPlayer) = 1 ->
  Forall (fun k => k <> "enter"%string) ks ->
  let m1 := (Update ti_update m (KeyMsg "enter")).1 in
  let m1' := run_msgs ti_update m1 (map KeyMsg ks) in
  let m2 := (Update ti_update m1' (KeyMsg "enter")).1 in
  m1.(players).1.(name) = m.(textInput_of).(ti_value) /\
  m1.(textInput_of) = mkTextInput "" "Player 2 name?" /\
  m1.(view) = 0 /\ m1.(currentPlayer) = -1 /\
  m2.(players).1.(name) = m.(textInput_of).(ti_value) /\
  m2.(players).2.(name) = m1'.(textInput_of).(ti_value) /\
  m2.(view) = 1 /\ m2.(currentPlayer) = 1 /\
  m2.(board_of) = m.(board_of) /\
  m2.(players).1.(score) = m.(players).1.(score) /\
  m2.(players).2.(score) = m.(players).2.(score).
Proof.
  intros Hv Hcp Hks m1 m1' m2.
  assert (Hm1 : m1 = set_currentPlayer (set_textInput
                  (set_players m (set_name m.(players).1 m.(textInput_of).(ti_value),
                                  m.(players).2))
                  (mkTextInput "" "Player 2 name?")) (-1)).
  { unfold m1, Update. rewrite Hv, Hcp. reflexivity. }
  destruct (naming_keys_run ti_update m1 ks ltac:(rewrite Hm1; exact Hv) Hks)
    as (Hb & Hc & Hv' & Hp).
  fold m1' in Hb, Hc, Hv', Hp.
  assert (Hm2 : m2 = set_view (set_currentPlayer (set_players m1'
                  (m1'.(players).1, set_name m1'.(players).2 m1'.(textInput_of).(ti_value)))
                  1) 1).
  { unfold m2, Update. rewrite Hv', Hc, Hm1. cbn [view set_currentPlayer set_textInput set_players].
    rewrite Hv. reflexivity. }
  rewrite Hm2. rewrite Hm1 in Hb, Hp. cbn in Hb, Hp |- *.
  rewrite Hp, Hb. cbn. rewrite Hm1. cbn. repeat split. exact Hv.
Qed.

Lemma naming_flow_witness :
  let m2 := run_msgs ti_append (set_view newBubbleteaModel 0)
              [KeyMsg "enter"; KeyMsg "b"; KeyMsg "o"; KeyMsg "b"; KeyMsg "enter"] in
  m2.(view) = 1.
Proof.
  destruct (naming_flow ti_append (set_view newBubbleteaModel 0) ["b";"o";"b"]
              ltac:(reflexivity) ltac:(reflexivity)
              ltac:(repeat constructor; discriminate)) as (_ & _ & _ & _ & _ & _ & H & _).
  exact H.
Defined.

Lemma updateCell_view m x y : (updateCell m x y).(view) = m.(view).
Proof.
  rewrite updateCell_unfold. destruct (place _ _ _ _) as [b0 cp].
  by destruct (check_lines b0 x y).
Qed.



Lemma view2_run
    (ti_update : textInput -> string -> textInput) (m : model) (ms : list msg) :
  m.(view) = 2 ->
  let m' := run_msgs ti_update m ms in
  m'.(view) = 2 /\ m'.(board_of) = m.(board_of) /\
  m'.(currentPlayer) = m.(currentPlayer) /\
  m'.(textInput_of) = m.(textInput_of) /\ m'.(players).2 = m.(players).2.
Proof.
  revert m. induction ms as [|x ms IH]; intros m Hv; cbv zeta; [done|].
  rewrite run_msgs_cons.
  assert (Hs : let m1 := (Update ti_update m x).1 in
               m1.(view) = 2 /\ m1.(board_of) = m.(board_of) /\
               m1.(currentPlayer) = m.(currentPlayer) /\
               m1.(textInput_of) = m.(textInput_of) /\ m1.(players).2 = m.(players).2).
  { unfold Update. destruct x as [|w h|k|]; cbn; rewrite ?Hv; done. }
  destruct Hs as (H1 & H2 & H3 & H4 & H5).
  destruct (IH _ H1) as (G1 & G2 & G3 & G4 & G5).
  rewrite G2, G3, G4, G5, H2, H3, H4, H5. done.
Qed.

(** Claim X5: view 2 is a dead end: once [view] is 2 no message brings the
    session back; every key is ignored, so the board, the turn, the text
    input and [players[1]] never change again (window-size messages still
    update [players[0]]'s size). *)
Theorem view2_dead_end
    (ti_update : textInput -> string -> textInput) (m : model) (ms : list msg) :
  m.(view) = 2 ->
  let m' := run_msgs ti_update m ms in
  m'.(view) = 2 /\ m'.(board_of) = m.(board_of) /\
  m'.(currentPlayer) = m.(currentPlayer) /\
  m'.(textInput_of) = m.(textInput_of) /\ m'.(players).2 = m.(players).2.
Proof. exact (view2_run ti_update m ms). Qed.

Lemma view2_dead_end_witness :
  (run_msgs ti_append (set_view newBubbleteaModel 2)
     [KeyMsg "0"; KeyMsg "1"; KeyMsg "esc"; KeyMsg "enter"]).(view) = 2.
Proof.
  destruct (view2_dead_end ti_append (set_view newBubbleteaModel 2)
              [KeyMsg "0"; KeyMsg "1"; KeyMsg "esc"; KeyMsg "enter"]
              ltac:(reflexivity)) as [H _].
  exact H.
Defined.

Lemma move_key_inv k x y :
  move_key k = Some (x, y) ->
  In (k, x, y) [("q", 0, 0); ("w", 0, 1); ("e", 0, 2);
                ("a", 1, 0); ("s", 1, 1); ("d", 1, 2);
                ("z", 2, 0); ("x", 2, 1); ("c", 2, 2)]%string%nat.
Proof.
  unfold move_key.
  repeat match goal with
  | |- context [String.eqb k ?s] =>
      destruct (String.eqb_spec k s) as [->|_];
        [intros H; injection H as <- <-; cbn; auto 20|]
  end.
  discriminate.
Qed.

Lemma move_key_range k x y :
  move_key k = Some (x, y) -> (x < 3)%nat /\ (y < 3)%nat /\
  forall k', move_key k' = Some (x, y) -> k' = k.
Proof.
  intros H. apply move_key_inv in H. cbn in H.
  repeat match goal with
  | H : _ \/ _ |- _ => destruct H as [H|H]
  | H : False |- _ => destruct H
  end;
  injection H as <- <- <-; (split; [lia|split; [lia|]]); intros k' H';
  apply move_key_inv in H'; cbn in H';
  repeat match goal with
  | H : _ \/ _ |- _ => destruct H as [H|H]
  | H : False |- _ => destruct H
  end; inversion H'; subst; reflexivity.
Qed.

(** Claim X6: the nine move keys [q w e / a s d / z x c] address exactly
    the nine cells of the 3x3 board, each cell by one key, so every index
    passed to [updateCell] by [Update] is in range. *)
Theorem move_keys_cover_board :
  (forall k x y, move_key k = Some (x, y) -> (x < 3)%nat /\ (y < 3)%nat) /\
  (forall x y, (x < 3)%nat -> (y < 3)%nat -> exists k, move_key k = Some (x, y)) /\
  (forall k k' p, move_key k = Some p -> move_key k' = Some p -> k = k').
Proof.
  split; [|split].
  - intros k x y H. apply move_key_range in H. tauto.
  - intros x y Hx Hy.
    destruct x as [|[|[|]]]; [| | |lia]; destruct y as [|[|[|]]]; try lia;
      first [ exists "q"%string; reflexivity | exists "w"%string; reflexivity
            | exists "e"%string; reflexivity | exists "a"%string; reflexivity
            | exists "s"%string; reflexivity | exists "d"%string; reflexivity
            | exists "z"%string; reflexivity | exists "x"%string; reflexivity
            | exists "c"%string; reflexivity ].
  - intros k k' [x y] H H'. apply move_key_range in H as (_ & _ & H).
    symmetry. exact (H k' H').
Qed.

(** Claim X7: on the board view (1), a key changes the view only when it
    is one of "0", "1", "2"; every key that is not a move key, [ctrl+c],
    a view digit or [esc] leaves the model unchanged. *)
Theorem view1_key_frame
    (ti_update : textInput -> string -> textInput) (m : model) (k : string) :
  m.(view) = 1 ->
  k <> "0"%string -> k <> "1"%string -> k <> "2"%string ->
  (Update ti_update m (KeyMsg k)).1.(view) = 1 /\
  (k <> "ctrl+c"%string -> move_key k = None -> k <> "esc"%string ->
   Update ti_update m (KeyMsg k) = (m, None)).
Proof.
  intros Hv H0 H1 H2. unfold Update. rewrite Hv.
  change (1 =? 0) with false. change (1 =? 1) with true. cbv iota beta.
  destruct (String.eqb_spec k "ctrl+c") as [Ek|Hc].
  - split; [exact Hv|intros Hn; contradiction].
  - destruct (move_key k) as [[x y]|] eqn:Ek.
    + split; [cbn [fst]; rewrite updateCell_view; exact Hv|intros _ H; discriminate H].
    + destruct (String.eqb_spec k "0") as [|_]; [contradiction|].
      destruct (String.eqb_spec k "1") as [|_]; [contradiction|].
      destruct (String.eqb_spec k "2") as [|_]; [contradiction|].
      destruct (String.eqb_spec k "esc") as [->|_].
      * split; [exact Hv|intros _ _ Hn; contradiction].
      * split; [exact Hv|reflexivity].
Qed.

Lemma view1_key_frame_witness :
  Update ti_append m_row0_threat (KeyMsg "p") = (m_row0_threat, None).
Proof.
  apply (view1_key_frame ti_append m_row0_threat "p" ltac:(reflexivity)
           ltac:(discriminate) ltac:(discriminate) ltac:(discriminate)).
  - discriminate.
  - reflexivity.
  - discriminate.
Defined.

(** ** Players *)

Lemma updateCell_players m x y :
  (updateCell m x y).(players) = m.(players) \/
  (updateCell m x y).(players) = (incr_score m.(players).1, m.(players).2) \/
  (updateCell m x y).(players) = (m.(players).1, incr_score m.(players).2).
Proof.
  rewrite updateCell_unfold.
  destruct (place _ _ _ _) as [b0 cp]. destruct (check_lines b0 x y) as [b1 v].
  cbn. destruct v; [destruct (negb (cp =? 1)); auto|auto].
Qed.

(** Claim X11: a move changes at most one player record, and only its
    score, by one (with Go's wrap-around): names, sizes and channels of
    both players are kept. *)
Theorem updateCell_changes_one_score (m : model) (x y : nat) :
  (updateCell m x y).(players) = m.(players) \/
  (updateCell m x y).(players) =
    (set_score m.(players).1 (iinc m.(players).1.(score)), m.(players).2) \/
  (updateCell m x y).(players) =
    (m.(players).1, set_score m.(players).2 (iinc m.(players).2.(score))).
Proof. exact (updateCell_players m x y). Qed.

Lemma Update_keeps_sizes_ch ti_update m x :
  (Update ti_update m x).1.(players).2.(width) = m.(players).2.(width) /\
  (Update ti_update m x).1.(players).2.(height) = m.(players).2.(height) /\
  (Update ti_update m x).1.(players).1.(ch) = m.(players).1.(ch) /\
  (Update ti_update m x).1.(players).2.(ch) = m.(players).2.(ch).
Proof.
  unfold Update. destruct x as [|w h|k|]; cbn -[updateCell]; [done|done| |done].
  repeat case_match; cbn -[updateCell]; try done.
  destruct (updateCell_players m n n0) as [-> | [-> | ->]]; done.
Qed.

(** Claim X8: a terminal resize, in any view and in either player's
    session, is recorded as the size of [players[0]] only; no message
    ever changes the size [teaHandler] recorded for [players[1]], nor
    either player's channel. *)
Theorem resize_goes_to_player0
    (ti_update : textInput -> string -> textInput) (m : model) (w h : Z) (ms : list msg) :
  (Update ti_update m (WindowSizeMsg w h)).1.(players).1.(width) = w /\
  (Update ti_update m (WindowSizeMsg w h)).1.(players).1.(height) = h /\
  (run_msgs ti_update m ms).(players).2.(width) = m.(players).2.(width) /\
  (run_msgs ti_update m ms).(players).2.(height) = m.(players).2.(height) /\
  (run_msgs ti_update m ms).(players).1.(ch) = m.(players).1.(ch) /\
  (run_msgs ti_update m ms).(players).2.(ch) = m.(players).2.(ch).
Proof.
  split; [reflexivity|split; [reflexivity|]].
  revert m. induction ms as [|x ms IH]; intros m; [done|].
  rewrite run_msgs_cons.
  destruct (Update_keeps_sizes_ch ti_update m x) as (E1 & E2 & E3 & E4).
  destruct (IH (Update ti_update m x).1) as (F1 & F2 & F3 & F4).
  rewrite F1, F2, F3, F4, E1, E2, E3, E4. done.
Qed.

(** Claim X9: in the middle of a game, [0] then [enter] renames the
    player whose turn it is to the text input's value and hands the turn
    over, keeping board and scores; when [currentPlayer] was 1 the session
    is left in the naming view (0), when it was -1 it returns to the board
    view (1). *)
Theorem rename_mid_game
    (ti_update : textInput -> string -> textInput) (m : model) :
  m.(view) = 1 -> (m.(currentPlayer) = 1 \/ m.(currentPlayer) = -1) ->
  let m' := run_msgs ti_update m [KeyMsg "0"; KeyMsg "enter"] in
  m'.(board_of) = m.(board_of) /\
  m'.(currentPlayer) = - m.(currentPlayer) /\
  m'.(players).1.(score) = m.(players).1.(score) /\
  m'.(players).2.(score) = m.(players).2.(score) /\
  (m.(currentPlayer) = 1 ->
   m'.(view) = 0 /\ m'.(players).1.(name) = m.(textInput_of).(ti_value)) /\
  (m.(currentPlayer) = -1 ->
   m'.(view) = 1 /\ m'.(players).2.(name) = m.(textInput_of).(ti_value)).
Proof.
  destruct m as [b cp v t [p1 p2]]. cbn. intros -> [-> | ->]; vm_compute;
    repeat split; try done; intros H; discriminate H.
Qed.

Lemma rename_mid_game_witness :
  (run_msgs ti_append (set_textInput m_row0_threat (mkTextInput "ann" ""))
     [KeyMsg "0"; KeyMsg "enter"]).(players).1.(name) = "ann"%string.
Proof.
  destruct (rename_mid_game ti_append
              (set_textInput m_row0_threat (mkTextInput "ann" ""))
              ltac:(reflexivity) ltac:(left; reflexivity))
    as (_ & _ & _ & _ & H & _).
  exact (proj2 (H ltac:(reflexivity))).
Defined.

(** ** Cells a move leaves alone *)

Lemma get_set3_ne (b : board) i0 j0 i1 j1 i2 j2 t x y :
  (i0, j0) <> (x, y) -> (i1, j1) <> (x, y) -> (i2, j2) <> (x, y) ->
  get (set (set (set b i0 j0 t) i1 j1 t) i2 j2 t) x y = get b x y.
Proof. intros. rewrite !get_set_ne; auto. Qed.

Ltac pair_ne := let E := fresh in intros E; injection E; intros; lia.

Lemma place_frame b x y cp i j :
  (x, y) <> (i, j) -> get (place b x y cp).1 i j = get b i j.
Proof. intros H. unfold place. repeat case_match; cbn; auto using get_set_ne. Qed.

Lemma check_lines_frame b x y i j :
  i <> x -> j <> y -> i <> j -> (i + j <> 2)%nat ->
  get (check_lines b x y).1 i j = get b i j.
Proof.
  intros Hx Hy Hd Ha. unfold check_lines.
  transitivity (get (check_diag (check_col y (check_row x (b, false)))).1 i j).
  { unfold check_anti. destruct (check_diag _) as [b3 v3].
    repeat case_match; cbn; try reflexivity. apply get_set3_ne; pair_ne. }
  transitivity (get (check_col y (check_row x (b, false))).1 i j).
  { unfold check_diag at 1. destruct (check_col _ _) as [b2 v2].
    repeat case_match; cbn; try reflexivity. apply get_set3_ne; pair_ne. }
  transitivity (get (check_row x (b, false)).1 i j).
  { unfold check_col at 1. destruct (check_row _ _) as [b1 v1].
    repeat case_match; cbn; try reflexivity. apply get_set3_ne; pair_ne. }
  unfold check_row. repeat case_match; cbn; try reflexivity.
  apply get_set3_ne; pair_ne.
Qed.

(** Claim X10: a move at [(x, y)] only writes cells of its row, its
    column and the two diagonals (the diagonal checks run whatever the
    move): every other cell keeps its value. *)
Theorem updateCell_frame (m : model) (x y i j : nat) :
  i <> x -> j <> y -> i <> j -> (i + j <> 2)%nat ->
  get (updateCell m x y).(board_of) i j = get m.(board_of) i j.
Proof.
  intros Hx Hy Hd Ha. rewrite updateCell_board, check_lines_frame by assumption.
  apply place_frame. pair_ne.
Qed.

Lemma updateCell_frame_witness :
  get (updateCell m_row0_threat 0 2).(board_of) 1 0 = -1.
Proof.
  rewrite (updateCell_frame m_row0_threat 0 2 1 0 ltac:(lia) ltac:(lia)
             ltac:(lia) ltac:(lia)).
  reflexivity.
Defined.

(** ** Sessions *)

Lemma teaHandler_sessions gs sid user w h c :
  (teaHandler gs sid user w h c).1.(sessions) = delete sid gs.(sessions).
Proof.
  unfold teaHandler, RegisterSession.
  destruct gs as [[[p0|] [p1|]] m s]; cbn; apply delete_insert_eq.
Qed.

(** Claim X12: the unregistration deferred in [teaHandler] runs as soon
    as the handler returns, so the registry afterwards is the one before
    minus the session's id; from an empty registry it stays empty and a
    later broadcast sends to no one. *)
Theorem teaHandler_unregisters_at_return
    (gs : gameState) (sid user : string) (w h : Z) (c : chan)
    (st : chan -> chanState) (v : msg) :
  (teaHandler gs sid user w h c).1.(sessions) = delete sid gs.(sessions) /\
  (gs.(sessions) = ∅ ->
   (teaHandler gs sid user w h c).1.(sessions) = ∅ /\
   BroadcastMessage (teaHandler gs sid user w h c).1 st v = Some st).
Proof.
  rewrite teaHandler_sessions. split; [reflexivity|].
  intros E. rewrite E, delete_empty. split; [reflexivity|].
  unfold BroadcastMessage. rewrite teaHandler_sessions, E, delete_empty,
    map_to_list_empty. reflexivity.
Qed.

Lemma teaHandler_unregisters_at_return_witness :
  (teaHandler gs_init "A" "alice" 80 24 1%nat).1.(sessions) = ∅.
Proof.
  exact (proj1 (proj2 (teaHandler_unregisters_at_return gs_init "A" "alice" 80 24 1%nat
                          chans_ready RedrawMsg) eq_refl)).
Defined.


(** Claim X14: the user of a bound session becomes the name of its slot,
    with the terminal size of the session; the other slot's name and
    size, both scores and the game itself (board, turn, view) are kept,
    and a closed session changes no name, size or score. *)
Theorem teaHandler_records_user
    (gs : gameState) (sid user : string) (w h : Z) (c : chan) :
  let r := teaHandler gs sid user w h c in
  let p := gs.(gs_m).(players) in
  let p' := r.1.(gs_m).(players) in
  (r.2 = Bound0 ->
     p'.1.(name) = user /\ p'.1.(width) = w /\ p'.1.(height) = h /\
     p'.2.(name) = p.2.(name) /\ p'.2.(width) = p.2.(width) /\
     p'.2.(height) = p.2.(height)) /\
  (r.2 = Bound1 ->
     p'.2.(name) = user /\ p'.2.(width) = w /\ p'.2.(height) = h /\
     p'.1.(name) = p.1.(name) /\ p'.1.(width) = p.1.(width) /\
     p'.1.(height) = p.1.(height)) /\
  (r.2 = Closed ->
     p'.1.(name) = p.1.(name) /\ p'.1.(width) = p.1.(width) /\
     p'.1.(height) = p.1.(height) /\ p'.2.(name) = p.2.(name) /\
     p'.2.(width) = p.2.(width) /\ p'.2.(height) = p.2.(height)) /\
  p'.1.(score) = p.1.(score) /\ p'.2.(score) = p.2.(score) /\
  r.1.(gs_m).(board_of) = gs.(gs_m).(board_of) /\
  r.1.(gs_m).(currentPlayer) = gs.(gs_m).(currentPlayer) /\
  r.1.(gs_m).(view) = gs.(gs_m).(view).
Proof.
  unfold teaHandler, RegisterSession.
  destruct gs as [[[p0|] [p1|]] m s]; cbn; case_decide; cbn;
    repeat split; intros; try discriminate; reflexivity.
Qed.

(** Claim X15: the channel of a session outlives it: when the handler
    returns the session's id is gone from the registry, but its channel
    stays bound in the model, in player 1's slot if that slot had no
    channel and otherwise in player 2's slot, replacing the channel
    there, whether or not the session was given a slot; player 1's
    channel, once set, is never replaced. *)
Theorem teaHandler_channel_outlives_session
    (gs : gameState) (sid user : string) (w h : Z) (c : chan) :
  let r := teaHandler gs sid user w h c in
  let p := gs.(gs_m).(players) in
  let p' := r.1.(gs_m).(players) in
  r.1.(sessions) !! sid = None /\
  (p.1.(ch) = None -> p'.1.(ch) = Some c /\ p'.2.(ch) = p.2.(ch)) /\
  (forall c0, p.1.(ch) = Some c0 -> p'.1.(ch) = Some c0 /\ p'.2.(ch) = Some c).
Proof.
  cbv zeta. rewrite teaHandler_sessions, lookup_delete_eq. split; [reflexivity|].
  unfold teaHandler, RegisterSession.
  destruct gs as [[[p0|] [p1|]] m s]; cbn; case_decide as Hc; cbn;
    split; intros; try congruence; split; first [reflexivity|congruence].
Qed.

(** ** Broadcast delivery *)

Lemma broadcast_list_frame st l v st' c :
  broadcast_list st l v = Some st' -> c ∉ l.*2 -> st' c = st c.
Proof.
  revert st. induction l as [|[k c0] l IH]; intros st H Hc; cbn [broadcast_list] in H.
  - by injection H as <-.
  - rewrite fmap_cons in Hc. apply not_elem_of_cons in Hc as [Hc0 Hc].
    cbn [snd] in Hc0.
    destruct (send (st c0) v) as [s|]; [|discriminate H].
    rewrite (IH _ H Hc). unfold store_upd.
    destruct (Nat.eqb_spec c c0); [contradiction|reflexivity].
Qed.

Lemma broadcast_list_delivers st l v st' c :
  NoDup l.*2 -> broadcast_list st l v = Some st' -> c ∈ l.*2 ->
  send (st c) v = Some (st' c).
Proof.
  revert st. induction l as [|[k c0] l IH]; intros st Hnd H Hc; cbn [broadcast_list] in H.
  - by apply not_elem_of_nil in Hc.
  - rewrite fmap_cons in Hnd, Hc. apply NoDup_cons in Hnd as [Hn Hnd].
    cbn [snd] in *.
    destruct (send (st c0) v) as [s|] eqn:Es; [|discriminate H].
    apply elem_of_cons in Hc as [->|Hc].
    + rewrite (broadcast_list_frame _ _ _ _ _ H Hn). unfold store_upd.
      rewrite Nat.eqb_refl. exact Es.
    + rewrite <- (IH _ Hnd H Hc). unfold store_upd.
      destruct (Nat.eqb_spec c c0) as [->|]; [contradiction|reflexivity].
Qed.

(** Claim X16: a completed [BroadcastMessage] sends the value once on the
    channel of every registered session (when distinct sessions hold
    distinct channels) and touches no channel outside the registry. *)
Theorem BroadcastMessage_delivers
    (gs : gameState) (st st' : chan -> chanState) (v : msg) :
  (forall i j c, gs.(sessions) !! i = Some c -> gs.(sessions) !! j = Some c -> i = j) ->
  BroadcastMessage gs st v = Some st' ->
  (forall i c, gs.(sessions) !! i = Some c -> send (st c) v = Some (st' c)) /\
  (forall c, (forall i, gs.(sessions) !! i <> Some c) -> st' c = st c).
Proof.
  intros Hinj H. unfold BroadcastMessage in H. split.
  - intros i c Hi. apply (broadcast_list_delivers _ _ _ _ _
      (sessions_channels_NoDup _ Hinj) H).
    apply (list_elem_of_fmap_2 snd _ (i, c)), elem_of_map_to_list, Hi.
  - intros c Hc. apply (broadcast_list_frame _ _ _ _ _ H).
    intros Hin. apply list_elem_of_fmap_1 in Hin as ([i c'] & -> & Hin).
    apply elem_of_map_to_list in Hin. exact (Hc i Hin).
Qed.

Lemma BroadcastMessage_delivers_witness :
  exists st', BroadcastMessage gs_one_session chans_ready RedrawMsg = Some st' /\
    send (chans_ready 7%nat) RedrawMsg = Some (st' 7%nat).
Proof.
  destruct (BroadcastMessage gs_one_session chans_ready RedrawMsg) as [st'|] eqn:E.
  - exists st'. split; [reflexivity|].
    refine (proj1 (BroadcastMessage_delivers gs_one_session chans_ready st' RedrawMsg
                     _ E) "X" 7%nat _); [|reflexivity].
    intros i j c Hi Hj. simpl in Hi, Hj.
    apply lookup_singleton_Some in Hi as [<- _].
    apply lookup_singleton_Some in Hj as [<- _]. reflexivity.
  - vm_compute in E. discriminate E.
Defined.

(** ** Glyphs *)

Lemma pieces_lookup z g :
  pieces !! z = Some g <->
  (z, g) ∈ [(1, 9675); (-1, 215); (2, 45); (3, 124); (4, 92); (5, 47); (0, 32)].
Proof. unfold pieces. symmetry. apply elem_of_list_to_map. vm_compute. repeat constructor; set_solver. Qed.

(** Claim X17: [pieces] has a glyph for exactly the cell values -1 to 5,
    and distinct cell values have distinct glyphs, so the rendered board
    tells every cell state apart. *)
Theorem pieces_glyphs_distinct (a b g : Z) :
  (is_Some (pieces !! a) <-> -1 <= a <= 5) /\
  (pieces !! a = Some g -> pieces !! b = Some g -> a = b).
Proof.
  split.
  - split; [|apply pieces_defined].
    intros [g' Hg]. rewrite pieces_lookup, !elem_of_cons, elem_of_nil in Hg.
    destruct_or! Hg; simplify_eq; lia.
  - rewrite !pieces_lookup, !elem_of_cons, !elem_of_nil.
    intros Ha Hb. destruct_or! Ha; destruct_or! Hb; simplify_eq; reflexivity.
Qed.

(** ** Turn-away keys and score overflow *)

(** Claim X18: on the board view, key [2] locks the session: the view
    becomes 2 and stays 2 whatever follows, and from then on the board,
    the turn, the text input and [players[1]] keep the values they had
    before the key. *)
Theorem key2_locks_session
    (ti_update : textInput -> string -> textInput) (m : model) (ms : list msg) :
  m.(view) = 1 ->
  let m' := run_msgs ti_update m (KeyMsg "2" :: ms) in
  m'.(view) = 2 /\ m'.(board_of) = m.(board_of) /\
  m'.(currentPlayer) = m.(currentPlayer) /\
  m'.(textInput_of) = m.(textInput_of) /\ m'.(players).2 = m.(players).2.
Proof.
  intros Hv. cbv zeta. rewrite run_msgs_cons.
  assert (E : (Update ti_update m (KeyMsg "2")).1 = set_view m 2).
  { unfold Update. rewrite Hv. reflexivity. }
  rewrite E.
  destruct (view2_run ti_update (set_view m 2) ms eq_refl) as (H1 & H2 & H3 & H4 & H5).
  cbn [set_view board_of currentPlayer textInput_of players] in H2, H3, H4, H5.
  repeat split; assumption.
Qed.

Lemma key2_locks_session_witness :
  (run_msgs ti_append m_row0_threat [KeyMsg "2"; KeyMsg "1"; KeyMsg "esc"]).(board_of)
  = m_row0_threat.(board_of).
Proof.
  destruct (key2_locks_session ti_append m_row0_threat [KeyMsg "1"; KeyMsg "esc"]
              ltac:(reflexivity)) as (_ & H & _).
  exact H.
Defined.


